(** * Escape-time kernel of the 3D Mandelbrot explorer (mandelbrot.py)

    A shallow embedding of the computational part of [mandelbrot.py]: the
    coordinate sequences, the complex sample grid, the escape-time
    evaluator [mandelbrot] and the nested loop that fills [mandelbrot_set].
    The rendering and animation part of the script (matplotlib) only reads
    the finished field and is left out.

    Numbers are modelled as the script has them: Python integers are [Z],
    NumPy's float64 is the kernel's binary64 type [float] (IEEE 754,
    round to nearest even), a complex128 is a pair of floats, an array is a
    list (of lists) read and written through Python's index rules. *)

From Stdlib Require Import ZArith Bool List Lia Floats String.
From stdpp Require Import base option list strings pretty.
Import ListNotations.

Local Open Scope Z_scope.

(** ** Python built-ins *)

Module Py.

(** [range(n)]: the integers [0, 1, ..., n-1]; empty when [n <= 0]. *)
Definition range (n : Z) : list Z := map Z.of_nat (seq 0 (Z.to_nat n)).

(** Index normalisation of a sequence of length [len]: a negative index
    counts from the end, anything outside [-len, len) raises IndexError
    ([None]). *)
Definition index (len : nat) (k : Z) : option nat :=
  if (0 <=? k) && (k <? Z.of_nat len) then Some (Z.to_nat k)
  else if (- Z.of_nat len <=? k) && (k <? 0) then Some (Z.to_nat (k + Z.of_nat len))
  else None.

(** [float(n)] for a Python integer: the nearest binary64 value, ties to
    even. *)
Definition float_of_int (n : Z) : float :=
  SF2Prim (binary_normalize prec emax n 0 false).

(** [a / b] on two Python integers (true division): the float nearest to
    the exact quotient, ZeroDivisionError ([None]) for [b = 0]. A quotient
    beyond the range of float64, which Python refuses with OverflowError,
    is infinite here. *)
Definition sf_of_int (n : Z) : spec_float :=
  match n with
  | Z0 => S754_zero false
  | Zpos p => S754_finite false p 0
  | Zneg p => S754_finite true p 0
  end.

Definition truediv (a b : Z) : option float :=
  if b =? 0 then None
  else Some (SF2Prim (SFdiv prec emax (sf_of_int a) (sf_of_int b))).

(** [str(n)] for a Python integer: its decimal digits, after a minus sign
    when it is negative. *)
Definition str (n : Z) : string := pretty n.

End Py.

(** ** NumPy scalars: complex128 *)

Module Np.

Record complex := Complex { real : float; imag : float }.

(** A float64 promoted to complex128, and the literal [1j]. *)
Definition of_real (a : float) : complex := Complex a 0.
Definition j1 : complex := Complex 0 1.

Definition cadd (a b : complex) : complex :=
  Complex (real a + real b) (imag a + imag b).

Definition cmul (a b : complex) : complex :=
  Complex (real a * real b - imag a * imag b)
          (real a * imag b + imag a * real b).

(** [z**2] on a complex128: NumPy's power unrolls the exponent 2 into one
    complex product. *)
Definition cpow2 (z : complex) : complex := cmul z z.

(** The C library's [hypot], behind [abs] of a complex128: an infinite
    argument gives infinity even next to a NaN; otherwise the rounded
    square root of the sum of squares. *)
Definition hypot (a b : float) : float :=
  if is_infinity a || is_infinity b then infinity
  else PrimFloat.sqrt (a * a + b * b).

Definition cabs (z : complex) : float := hypot (real z) (imag z).

(** Complex conjugate. *)
Definition conj (z : complex) : complex := Complex (real z) (- imag z).

(** *** Arrays *)

(** [np.linspace(start, stop, num)] with the default [endpoint=True]:
    [arange(0, num)] scaled by [step = (stop - start) / (num - 1)] and
    shifted by [start], the last sample then overwritten with [stop]. A
    step that rounds to zero is replaced by a division first; with fewer
    than two samples there is no step and the samples are scaled by the
    whole difference. A negative [num] raises ValueError ([None]). *)
Definition linspace (start stop : float) (num : Z) : option (list float) :=
  if num <? 0 then None
  else
    let div := num - 1 in
    let delta := (stop - start)%float in
    let y := map Py.float_of_int (Py.range num) in
    let y :=
      if 0 <? div then
        let step := (delta / Py.float_of_int div)%float in
        if (step =? 0)%float
        then map (fun v => (v / Py.float_of_int div * delta)%float) y
        else map (fun v => (v * step)%float) y
      else map (fun v => (v * delta)%float) y in
    let y := map (fun v => (v + start)%float) y in
    Some (if 1 <? num then <[(length y - 1)%nat := stop]> y else y).

(** [np.meshgrid(x, y)]: both results have a row per element of [y] and a
    column per element of [x]. *)
Definition meshgrid (xs ys : list float) : list (list float) * list (list float) :=
  (replicate (length ys) xs, map (fun v => replicate (length xs) v) ys).

(** [s * A] for a complex scalar and a float64 array, and [A + B] for a
    float64 and a complex128 array of one shape: elementwise, the floats
    promoted to complex. *)
Definition scalar_mul (s : complex) (A : list (list float)) : list (list complex) :=
  map (map (fun v => cmul s (of_real v))) A.

Definition add (A : list (list float)) (B : list (list complex)) : list (list complex) :=
  zip_with (zip_with (fun a b => cadd (of_real a) b)) A B.

(** [np.zeros((rows, cols))]; a negative dimension raises ValueError. *)
Definition zeros (rows cols : Z) : option (list (list float)) :=
  if (rows <? 0) || (cols <? 0) then None
  else Some (replicate (Z.to_nat rows) (replicate (Z.to_nat cols) 0%float)).

(** [a[k]], and [A[j, i]] and [A[j, i] = v] on a two-dimensional array; an
    index out of range raises IndexError. *)
Definition getitem {A : Type} (a : list A) (k : Z) : option A :=
  r ← Py.index (length a) k; a !! r.

Definition getitem2 {A : Type} (a : list (list A)) (j i : Z) : option A :=
  r ← Py.index (length a) j;
  row ← a !! r;
  k ← Py.index (length row) i;
  row !! k.

Definition setitem2 {A : Type} (a : list (list A)) (j i : Z) (v : A)
  : option (list (list A)) :=
  r ← Py.index (length a) j;
  row ← a !! r;
  k ← Py.index (length row) i;
  Some (<[r := <[k := v]> row]> a).

End Np.

Import Np.

(** ** The evaluator: [mandelbrot(c, max_iter)] *)

(** The test of the loop body, [abs(z) > 2]. *)
Definition escaped (z : complex) : bool := (2 <? cabs z)%float.

(** The update of the loop body, [z = z**2 + c]. *)
Definition step (c z : complex) : complex := cadd (cpow2 z) c.

(** The [for n in range(max_iter)] loop, run over the remaining values of
    [n] with the current [z]: [Some n] when the body returns [n], [None]
    when the loop runs to its end. *)
Fixpoint mandelbrot_for (c : complex) (ns : list Z) (z : complex) : option Z :=
  match ns with
  | [] => None
  | n :: ns' => if escaped z then Some n else mandelbrot_for c ns' (step c z)
  end.

Definition mandelbrot (c : complex) (max_iter : Z) : Z :=
  match mandelbrot_for c (Py.range max_iter) c with
  | Some n => n
  | None => max_iter
  end.

(** The sequence of the recurrence: [orbit c 0 = c],
    [orbit c (k+1) = (orbit c k)**2 + c]. *)
Fixpoint orbit (c : complex) (k : nat) : complex :=
  match k with
  | O => c
  | S k' => step c (orbit c k')
  end.


(** ** The script: module-level state *)

(** The names the script binds at module level; [None] is a name that is
    not bound yet (reading it raises NameError). The constants [width],
    [height] and [max_iterations] and the ends of the sampled interval are
    the parameters of the script below. *)
Record globals := Globals {
  x : option (list float);
  y : option (list float);
  X : option (list (list float));
  Y : option (list (list float));
  C : option (list (list complex));
  mandelbrot_set : option (list (list float))
}.

Definition unbound : globals := Globals None None None None None None.

Definition set_x v (g : globals) := Globals (Some v) (y g) (X g) (Y g) (C g) (mandelbrot_set g).
Definition set_y v (g : globals) := Globals (x g) (Some v) (X g) (Y g) (C g) (mandelbrot_set g).
Definition set_X v (g : globals) := Globals (x g) (y g) (Some v) (Y g) (C g) (mandelbrot_set g).
Definition set_Y v (g : globals) := Globals (x g) (y g) (X g) (Some v) (C g) (mandelbrot_set g).
Definition set_C v (g : globals) := Globals (x g) (y g) (X g) (Y g) (Some v) (mandelbrot_set g).
Definition set_mandelbrot_set v (g : globals) := Globals (x g) (y g) (X g) (Y g) (C g) (Some v).

(** A statement runs on the globals and either raises ([None]) or leaves
    new globals. *)
Definition stmt := globals -> option globals.

Definition then_ (s1 s2 : stmt) : stmt := fun g => g' ← s1 g; s2 g'.
Infix ">>" := then_ (at level 61, left associativity).

(** [for a in l: body] *)
Fixpoint for_in {A : Type} (l : list A) (body : A -> stmt) : stmt :=
  fun g =>
    match l with
    | [] => Some g
    | a :: l' => g' ← body a g; for_in l' body g'
    end.

Section Script.

Variables (width height : Z) (lo hi : float) (max_iterations : Z).

(** [x = np.linspace(lo, hi, width)] and [y = np.linspace(lo, hi, height)] *)
Definition assign_x : stmt := fun g => v ← Np.linspace lo hi width; Some (set_x v g).
Definition assign_y : stmt := fun g => v ← Np.linspace lo hi height; Some (set_y v g).

(** [X, Y = np.meshgrid(x, y)] *)
Definition assign_X_Y : stmt := fun g =>
  xs ← x g; ys ← y g;
  Some (set_Y (snd (Np.meshgrid xs ys)) (set_X (fst (Np.meshgrid xs ys)) g)).

(** [C = X + 1j * Y] *)
Definition assign_C : stmt := fun g =>
  a ← X g; b ← Y g; Some (set_C (Np.add a (Np.scalar_mul j1 b)) g).

(** [mandelbrot_set = np.zeros((height, width))] *)
Definition assign_mandelbrot_set : stmt := fun g =>
  v ← Np.zeros height width; Some (set_mandelbrot_set v g).

(** [mandelbrot_set[j, i] = mandelbrot(C[j, i], max_iterations)]: the
    array is updated in place, the integer stored as a float64. *)
Definition store (i j : Z) : stmt := fun g =>
  cs ← C g;
  c ← Np.getitem2 cs j i;
  ms ← mandelbrot_set g;
  ms' ← Np.setitem2 ms j i (Py.float_of_int (mandelbrot c max_iterations));
  Some (set_mandelbrot_set ms' g).

(** [for i in range(width): for j in range(height): ...] *)
Definition fill : stmt :=
  for_in (Py.range width) (fun i => for_in (Py.range height) (fun j => store i j)).

Definition setup : stmt :=
  assign_x >> assign_y >> assign_X_Y >> assign_C >> assign_mandelbrot_set.

Definition script : stmt := setup >> fill.

(** The grid points in the order the two loops visit them, and the script
    with the grid points visited in any other order. *)
Definition loop_order : list (Z * Z) :=
  i ← Py.range width; j ← Py.range height; [(i, j)].

Definition fill_in (order : list (Z * Z)) : stmt :=
  for_in order (fun p => store (fst p) (snd p)).

Definition script_in (order : list (Z * Z)) : stmt := setup >> fill_in order.

(** The Escape Field of a run that starts with nothing bound. *)
Definition escape_field : option (list (list float)) :=
  g ← script unbound; mandelbrot_set g.

End Script.

(** The script as it stands: 400 by 400 samples of [-2, 2] on both axes and
    at most 50 iterations. *)
Abbreviation program := (script 400 400 (-2) 2 50).


(** ** Shapes and cells of two-dimensional arrays *)

(** The element in row [j] and column [i], by position. *)
Definition cell {A : Type} (a : list (list A)) (j i : nat) : option A :=
  row ← a !! j; row !! i.

(** [rows] rows of [cols] elements each. *)
Definition shape {A : Type} (rows cols : nat) (a : list (list A)) : Prop :=
  length a = rows /\ forall r row, a !! r = Some row -> length row = cols.

(** The field the loops are to produce from the sample grid. *)
Definition counts (max_iterations : Z) (cs : list (list complex)) : list (list float) :=
  map (map (fun c => Py.float_of_int (mandelbrot c max_iterations))) cs.

(** The sample grid built from two coordinate sequences. *)
Definition grid (xs ys : list float) : list (list complex) :=
  Np.add (fst (Np.meshgrid xs ys)) (Np.scalar_mul j1 (snd (Np.meshgrid xs ys))).

(** The globals a run of the script ends with, in closed form: the two
    coordinate sequences, the mesh, the sample grid and the count of every
    grid point. *)
Definition outcome (width height : Z) (lo hi : float) (max_iterations : Z)
  : option globals :=
  xs ← Np.linspace lo hi width;
  ys ← Np.linspace lo hi height;
  Some (Globals (Some xs) (Some ys)
          (Some (fst (Np.meshgrid xs ys))) (Some (snd (Np.meshgrid xs ys)))
          (Some (grid xs ys)) (Some (counts max_iterations (grid xs ys)))).

(** ** The escape time of the recurrence *)

(** [n] is the escape time of [c] under the bound [M]: the smallest index
    in [0, M) whose iterate has modulus above 2, or [M] when no iterate
    with an index in [0, M) has. *)
Definition escape_time (c : complex) (M n : Z) : Prop :=
  (0 <= n < M /\ escaped (orbit c (Z.to_nat n)) = true /\
   forall k, 0 <= k < n -> escaped (orbit c (Z.to_nat k)) = false) \/
  (n = M /\ forall k, 0 <= k < M -> escaped (orbit c (Z.to_nat k)) = false).


(** ** Equality of floats up to the sign of zero *)

(** Two specification floats that are equal or both a zero; NaN is a single
    value in this model. *)
Definition sf_same (u v : spec_float) : Prop :=
  match u, v with
  | S754_zero _, S754_zero _ => True
  | _, _ => u = v
  end.

Definition same (a b : float) : Prop := sf_same (Prim2SF a) (Prim2SF b).

(** [z'] is the conjugate of [z], up to the sign of zero. *)
Definition conj_rel (z z' : complex) : Prop :=
  same (real z') (real z) /\ same (imag z') (- imag z)%float.

(** The grid point [a + 1j*b] as the script computes it. *)
Definition point (a b : float) : complex := cadd (of_real a) (cmul j1 (of_real b)).

(** The counts of every row of samples [ys] agree with those of the row at
    the mirrored position, column by column: a test by evaluation. *)
Definition mirrored (M : Z) (xs ys : list float) : bool :=
  forallb (fun p : float * float =>
             forallb (fun a => mandelbrot (point a (fst p)) M =? mandelbrot (point a (snd p)) M) xs)
          (zip ys (reverse ys)).

(** ** The frame callback: [update(frame)] *)


Section Update.

Variables (frames max_iterations : Z).

(** [angle = frame * (360 / frames)] *)
Definition angle (frame : Z) : option float :=
  q ← Py.truediv 360 frames; Some (Py.float_of_int frame * q)%float.

(** [f'Frame {frame + 1}/{frames}'] *)
Definition title (frame : Z) : string :=
  "Frame " +:+ Py.str (frame + 1) +:+ "/" +:+ Py.str frames.


End Update.

(** The azimuths of an animation, tested by evaluation: every frame of an
    animation of [frames] frames has an azimuth in [0, 360), above that of
    the frame before, and the first frame has azimuth 0. *)
Definition sweep_ok (frames : Z) : bool :=
  match Py.truediv 360 frames with
  | Some q =>
      forallb (fun frame =>
        let a := (Py.float_of_int frame * q)%float in
        let a' := (Py.float_of_int (frame + 1) * q)%float in
        (0 <=? a)%float && (a <? 360)%float && (a <? a')%float &&
        (negb (frame =? 0) || PrimFloat.Leibniz.eqb a 0)) (Py.range frames)
  | None => false
  end.

Example mandelbrot_far : mandelbrot (Complex 3 0) 7 = 0.
Proof. reflexivity. Qed.

Example mandelbrot_minus_one : mandelbrot (Complex (-1) 0) 7 = 7.
Proof. reflexivity. Qed.

Example float_of_int_50 : Py.float_of_int 50 = 50%float.
Proof. reflexivity. Qed.

(** ** The evaluator: the loop and the recurrence *)

Section Evaluator.

Variable c : complex.

Lemma orbit_iter (k : nat) : orbit c k = Nat.iter k (step c) c.
Proof. induction k as [|k IH]; simpl; congruence. Qed.

Lemma iter_step_shift (k : nat) (z : complex) :
  Nat.iter k (step c) (step c z) = Nat.iter (S k) (step c) z.
Proof. induction k as [|k IH]; simpl in *; congruence. Qed.

(** What the loop returns, started at counter [s] with [len] values left
    and the current iterate [z]. *)
Lemma mandelbrot_for_spec (len s : nat) (z : complex) :
  match mandelbrot_for c (map Z.of_nat (seq s len)) z with
  | Some n =>
      exists k : nat, n = Z.of_nat (s + k) /\ (k < len)%nat /\
        escaped (Nat.iter k (step c) z) = true /\
        forall i : nat, (i < k)%nat -> escaped (Nat.iter i (step c) z) = false
  | None =>
      forall i : nat, (i < len)%nat -> escaped (Nat.iter i (step c) z) = false
  end.
Proof.
  revert s z. induction len as [|len IH]; intros s z; simpl.
  - intros i Hi. lia.
  - destruct (escaped z) eqn:Ez.
    + exists 0%nat. split; [f_equal; lia|].
      split; [lia|]. split; [exact Ez|]. intros i Hi. lia.
    + specialize (IH (S s) (step c z)).
      destruct (mandelbrot_for c (map Z.of_nat (seq (S s) len)) (step c z)) as [n|].
      * destruct IH as (k & Hn & Hk & Hesc & Hbefore).
        exists (S k). split; [rewrite Hn; f_equal; lia|].
        split; [lia|]. split.
        -- rewrite <- iter_step_shift. exact Hesc.
        -- intros [|i] Hi; [exact Ez|].
           rewrite <- iter_step_shift. apply Hbefore. lia.
      * intros [|i] Hi; [exact Ez|].
        rewrite <- iter_step_shift. apply IH. lia.
Qed.

(** The result in terms of the recurrence, for a bound that is not
    negative. *)
Lemma mandelbrot_cases (M : Z) :
  0 <= M ->
  (mandelbrot c M = M /\
   forall k : nat, Z.of_nat k < M -> escaped (orbit c k) = false) \/
  (exists k : nat, mandelbrot c M = Z.of_nat k /\ Z.of_nat k < M /\
     escaped (orbit c k) = true /\
     forall i : nat, (i < k)%nat -> escaped (orbit c i) = false).
Proof.
  intros HM. unfold mandelbrot, Py.range.
  pose proof (mandelbrot_for_spec (Z.to_nat M) 0 c) as H.
  destruct (mandelbrot_for c (map Z.of_nat (seq 0 (Z.to_nat M))) c) as [n|].
  - right. destruct H as (k & Hn & Hk & Hesc & Hbefore).
    exists k. simpl in Hn. split; [exact Hn|]. split; [lia|]. split.
    + rewrite orbit_iter. exact Hesc.
    + intros i Hi. rewrite orbit_iter. apply Hbefore, Hi.
  - left. split; [reflexivity|].
    intros k Hk. rewrite orbit_iter. apply H. lia.
Qed.

(** A negative bound: the range is empty and the bound itself comes back. *)
Lemma mandelbrot_negative (M : Z) : M < 0 -> mandelbrot c M = M.
Proof.
  intros HM. unfold mandelbrot, Py.range.
  replace (Z.to_nat M) with 0%nat by lia. reflexivity.
Qed.

Lemma mandelbrot_range (M : Z) : 0 <= M -> 0 <= mandelbrot c M <= M.
Proof.
  intros HM. destruct (mandelbrot_cases M HM) as [[-> _]|(k & -> & Hk & _)]; lia.
Qed.

End Evaluator.

(** ** Indexing *)

Lemma index_nat (len k : nat) :
  (k < len)%nat -> Py.index len (Z.of_nat k) = Some k.
Proof.
  intros Hk. unfold Py.index.
  destruct (Z.leb_spec 0 (Z.of_nat k)); [|lia].
  destruct (Z.ltb_spec (Z.of_nat k) (Z.of_nat len)); [|lia].
  simpl. f_equal. lia.
Qed.


Lemma index_bound (len : nat) (k : Z) (r : nat) :
  Py.index len k = Some r -> (r < len)%nat.
Proof.
  unfold Py.index.
  destruct (Z.leb_spec 0 k), (Z.ltb_spec k (Z.of_nat len)); simpl;
    try (intros [= <-]; lia);
    destruct (Z.leb_spec (- Z.of_nat len) k), (Z.ltb_spec k 0); simpl;
    try discriminate; intros [= <-]; lia.
Qed.

Lemma range_length (n : Z) : length (Py.range n) = Z.to_nat n.
Proof. unfold Py.range. rewrite length_map, length_seq. reflexivity. Qed.


Lemma range_elem (n k : Z) : k ∈ Py.range n <-> 0 <= k < n.
Proof.
  unfold Py.range. rewrite list_elem_of_fmap. split.
  - intros (m & -> & Hm). apply elem_of_seq in Hm. lia.
  - intros Hk. exists (Z.to_nat k). split; [lia|]. apply elem_of_seq. lia.
Qed.

Section Cells.

Context {A : Type}.
Implicit Types (a : list (list A)) (v : A).

Lemma getitem_nat (l : list A) (k : nat) :
  (k < length l)%nat -> Np.getitem l (Z.of_nat k) = l !! k.
Proof. intros Hk. unfold Np.getitem. rewrite index_nat by exact Hk. reflexivity. Qed.

Lemma shape_row a rows cols j :
  shape rows cols a -> (j < rows)%nat ->
  exists row, a !! j = Some row /\ length row = cols.
Proof.
  intros [Hlen Hrows] Hj.
  destruct (lookup_lt_is_Some_2 a j) as [row Hrow]; [lia|].
  exists row. split; [exact Hrow | exact (Hrows _ _ Hrow)].
Qed.

Lemma cell_is_Some a rows cols j i :
  shape rows cols a -> (j < rows)%nat -> (i < cols)%nat ->
  is_Some (cell a j i).
Proof.
  intros Hs Hj Hi. destruct (shape_row _ _ _ _ Hs Hj) as (row & Hrow & Hlen).
  unfold cell. rewrite Hrow. simpl. apply lookup_lt_is_Some_2. lia.
Qed.

Lemma getitem2_cell a rows cols j i :
  shape rows cols a -> (j < rows)%nat -> (i < cols)%nat ->
  Np.getitem2 a (Z.of_nat j) (Z.of_nat i) = cell a j i.
Proof.
  intros Hs Hj Hi. destruct (shape_row _ _ _ _ Hs Hj) as (row & Hrow & Hlen).
  unfold Np.getitem2, cell. destruct Hs as [Hrows _].
  rewrite index_nat by lia. simpl. rewrite Hrow. simpl.
  rewrite index_nat by lia. reflexivity.
Qed.

Lemma setitem2_cell a rows cols j i v :
  shape rows cols a -> (j < rows)%nat -> (i < cols)%nat ->
  exists a', Np.setitem2 a (Z.of_nat j) (Z.of_nat i) v = Some a' /\
    shape rows cols a' /\
    forall j' i', cell a' j' i' =
      if decide (j' = j /\ i' = i) then Some v else cell a j' i'.
Proof.
  intros Hs Hj Hi. destruct (shape_row _ _ _ _ Hs Hj) as (row & Hrow & Hlen).
  destruct Hs as [Hrows Hcols].
  exists (<[j := <[i := v]> row]> a). split; [|split].
  - unfold Np.setitem2. rewrite index_nat by lia. simpl. rewrite Hrow. simpl.
    rewrite index_nat by lia. reflexivity.
  - split; [rewrite length_insert; exact Hrows|].
    intros r row' Hr. destruct (decide (r = j)) as [->|Hne].
    + rewrite list_lookup_insert_eq in Hr by lia. injection Hr as <-.
      rewrite length_insert. exact Hlen.
    + rewrite list_lookup_insert_ne in Hr by congruence. exact (Hcols _ _ Hr).
  - intros j' i'. unfold cell. destruct (decide (j' = j)) as [->|Hne].
    + rewrite list_lookup_insert_eq by lia. simpl. rewrite Hrow. simpl.
      destruct (decide (i' = i)) as [->|Hne'].
      * rewrite decide_True by done. apply list_lookup_insert_eq. lia.
      * rewrite decide_False by (intros [_ ?]; done).
        apply list_lookup_insert_ne. congruence.
    + rewrite decide_False by (intros [? _]; done).
      rewrite list_lookup_insert_ne by congruence. reflexivity.
Qed.

(** Two arrays of one shape with the same cells are equal. *)
Lemma shape_cells_eq a b rows cols :
  shape rows cols a -> shape rows cols b ->
  (forall j i, (j < rows)%nat -> (i < cols)%nat -> cell a j i = cell b j i) ->
  a = b.
Proof.
  intros Ha Hb Hcells. apply list_eq. intros j.
  destruct (decide (j < rows)%nat) as [Hj|Hj].
  - destruct (shape_row _ _ _ _ Ha Hj) as (ra & Hra & Hla).
    destruct (shape_row _ _ _ _ Hb Hj) as (rb & Hrb & Hlb).
    rewrite Hra, Hrb. f_equal. apply list_eq. intros i.
    destruct (decide (i < cols)%nat) as [Hi|Hi].
    + specialize (Hcells j i Hj Hi). unfold cell in Hcells.
      rewrite Hra, Hrb in Hcells. exact Hcells.
    + rewrite !lookup_ge_None_2 by lia. reflexivity.
  - destruct Ha as [Ha _], Hb as [Hb _].
    rewrite !lookup_ge_None_2 by lia. reflexivity.
Qed.

End Cells.

(** ** The sample grid and the target field *)

Lemma grid_shape (xs ys : list float) :
  shape (length ys) (length xs) (grid xs ys).
Proof.
  unfold grid, Np.add, Np.scalar_mul, Np.meshgrid, shape. simpl. split.
  - rewrite length_zip_with, length_replicate, !length_map. lia.
  - intros r row Hr. apply lookup_zip_with_Some in Hr as (a & b & -> & Ha & Hb).
    apply lookup_replicate in Ha as [-> _].
    rewrite !list_lookup_fmap in Hb.
    destruct (ys !! r); simpl in Hb; [|discriminate]. injection Hb as <-.
    rewrite length_zip_with, length_map, length_replicate. lia.
Qed.

Lemma grid_cell (xs ys : list float) (j i : nat) (xi yj : float) :
  ys !! j = Some yj -> xs !! i = Some xi ->
  cell (grid xs ys) j i = Some (cadd (of_real xi) (cmul j1 (of_real yj))).
Proof.
  intros Hy Hx. unfold cell, grid, Np.add, Np.scalar_mul, Np.meshgrid. simpl.
  rewrite lookup_zip_with, lookup_replicate_2 by (eapply lookup_lt_Some, Hy).
  simpl. rewrite !list_lookup_fmap, Hy. simpl.
  rewrite lookup_zip_with, Hx. simpl.
  rewrite list_lookup_fmap, lookup_replicate_2 by (eapply lookup_lt_Some, Hx).
  reflexivity.
Qed.

Lemma counts_shape (M : Z) (cs : list (list complex)) (rows cols : nat) :
  shape rows cols cs -> shape rows cols (counts M cs).
Proof.
  intros [Hrows Hcols]. unfold counts. split; [rewrite length_map; exact Hrows|].
  intros r row Hr. rewrite list_lookup_fmap in Hr.
  destruct (cs !! r) as [row'|] eqn:Hrow; simpl in Hr; [|discriminate].
  injection Hr as <-. rewrite length_map. exact (Hcols _ _ Hrow).
Qed.

Lemma counts_cell (M : Z) (cs : list (list complex)) (j i : nat) :
  cell (counts M cs) j i =
  (fun c => Py.float_of_int (mandelbrot c M)) <$> cell cs j i.
Proof.
  unfold cell, counts. rewrite list_lookup_fmap.
  destruct (cs !! j) as [row|]; simpl; [|reflexivity].
  apply list_lookup_fmap.
Qed.

Lemma zeros_shape (rows cols : Z) :
  0 <= rows -> 0 <= cols ->
  exists a, Np.zeros rows cols = Some a /\ shape (Z.to_nat rows) (Z.to_nat cols) a.
Proof.
  intros Hr Hc. unfold Np.zeros.
  destruct (Z.ltb_spec rows 0); [lia|]. destruct (Z.ltb_spec cols 0); [lia|].
  simpl. eexists. split; [reflexivity|]. split.
  - apply length_replicate.
  - intros r row Hrow. apply lookup_replicate in Hrow as [-> _].
    apply length_replicate.
Qed.

(** ** The loops *)

Lemma for_in_app {A : Type} (l1 l2 : list A) (body : A -> stmt) (g : globals) :
  for_in (l1 ++ l2) body g = (g' ← for_in l1 body g; for_in l2 body g').
Proof.
  revert g. induction l1 as [|a l1 IH]; intros g; simpl; [reflexivity|].
  destruct (body a g) as [g'|]; simpl; [apply IH | reflexivity].
Qed.

Lemma for_in_ext {A : Type} (l : list A) (body1 body2 : A -> stmt) (g : globals) :
  (forall a g', body1 a g' = body2 a g') ->
  for_in l body1 g = for_in l body2 g.
Proof.
  intros Hext. revert g. induction l as [|a l IH]; intros g; simpl; [reflexivity|].
  rewrite Hext. destruct (body2 a g) as [g'|]; simpl; [apply IH | reflexivity].
Qed.

Lemma for_in_bind {A B : Type} (l : list A) (f : A -> list B)
    (body : B -> stmt) (g : globals) :
  for_in (l ≫= f) body g = for_in l (fun a => for_in (f a) body) g.
Proof.
  revert g. induction l as [|a l IH]; intros g; [reflexivity|].
  change ((a :: l) ≫= f) with (f a ++ (l ≫= f)).
  rewrite for_in_app. simpl.
  destruct (for_in (f a) body g) as [g'|]; simpl; [apply IH | reflexivity].
Qed.

(** The two nested loops visit the grid points of [loop_order], in that
    order. *)
Lemma fill_loop_order (width height M : Z) (g : globals) :
  fill width height M g = fill_in M (loop_order width height) g.
Proof.
  unfold fill, fill_in, loop_order. rewrite for_in_bind.
  apply for_in_ext. intros i g'. rewrite for_in_bind.
  apply for_in_ext. intros j g''. simpl.
  destruct (store M i j g''); reflexivity.
Qed.

Lemma loop_order_elem (width height : Z) (p : Z * Z) :
  p ∈ loop_order width height <-> (0 <= p.1 < width /\ 0 <= p.2 < height).
Proof.
  unfold loop_order. rewrite list_elem_of_bind. split.
  - intros (i & Hp & Hi). apply list_elem_of_bind in Hp as (j & Hp & Hj).
    apply list_elem_of_singleton in Hp as ->. simpl.
    apply range_elem in Hi. apply range_elem in Hj. lia.
  - intros [Hi Hj]. exists p.1. split; [|apply range_elem; exact Hi].
    apply list_elem_of_bind. exists p.2. split; [|apply range_elem; exact Hj].
    destruct p. apply list_elem_of_singleton. reflexivity.
Qed.

(** Visiting the grid points of [order], all of them inside the array:
    every visited cell holds its count, every other cell is untouched,
    whatever the order and however often a cell is visited. *)
Lemma fill_in_spec (M : Z) (order : list (Z * Z)) (rows cols : nat)
    (cs : list (list complex)) :
  shape rows cols cs ->
  (forall p, p ∈ order -> 0 <= p.1 < Z.of_nat cols /\ 0 <= p.2 < Z.of_nat rows) ->
  forall (g : globals) (ms : list (list float)),
  C g = Some cs -> mandelbrot_set g = Some ms -> shape rows cols ms ->
  exists ms', fill_in M order g = Some (set_mandelbrot_set ms' g) /\
    shape rows cols ms' /\
    forall j i, (j < rows)%nat -> (i < cols)%nat ->
      cell ms' j i =
      if decide ((Z.of_nat i, Z.of_nat j) ∈ order)
      then cell (counts M cs) j i else cell ms j i.
Proof.
  intros Hcs. induction order as [|[i0 j0] order IH]; intros Hin g ms HC Hms Hshape.
  - exists ms. split; [|split].
    + simpl. destruct g; simpl in *. subst. reflexivity.
    + exact Hshape.
    + intros j i _ _. rewrite decide_False by apply not_elem_of_nil. reflexivity.
  - assert (0 <= i0 < Z.of_nat cols /\ 0 <= j0 < Z.of_nat rows) as [Hi0 Hj0].
    { apply (Hin (i0, j0)). left. }
    assert (Z.to_nat j0 < rows)%nat as Hj0' by lia.
    assert (Z.to_nat i0 < cols)%nat as Hi0' by lia.
    destruct (cell_is_Some cs rows cols _ _ Hcs Hj0' Hi0') as [c Hc].
    destruct (setitem2_cell ms rows cols (Z.to_nat j0) (Z.to_nat i0)
                (Py.float_of_int (mandelbrot c M)) Hshape Hj0' Hi0')
      as (ms1 & Hset & Hshape1 & Hcell1).
    rewrite !Z2Nat.id in Hset by lia.
    assert (store M i0 j0 g = Some (set_mandelbrot_set ms1 g)) as Hstore.
    { unfold store. rewrite HC. simpl.
      rewrite <- (Z2Nat.id j0), <- (Z2Nat.id i0) by lia.
      rewrite (getitem2_cell cs rows cols) by assumption.
      rewrite Hc. simpl. rewrite Hms. simpl.
      rewrite !Z2Nat.id by lia. rewrite Hset. reflexivity. }
    destruct (IH (fun p Hp => Hin p (list_elem_of_further _ _ _ Hp))
                (set_mandelbrot_set ms1 g) ms1 HC eq_refl Hshape1)
      as (ms' & Hfill & Hshape' & Hcell').
    exists ms'. split; [|split].
    + unfold fill_in in *. simpl. rewrite Hstore. simpl. rewrite Hfill. reflexivity.
    + exact Hshape'.
    + intros j i Hj Hi. rewrite (Hcell' j i Hj Hi).
      destruct (decide ((Z.of_nat i, Z.of_nat j) ∈ order)) as [Hmem|Hmem].
      * rewrite decide_True by (right; exact Hmem). reflexivity.
      * rewrite Hcell1.
        destruct (decide (j = Z.to_nat j0 /\ i = Z.to_nat i0)) as [[-> ->]|Hne].
        -- rewrite decide_True by (rewrite !Z2Nat.id by lia; left).
           rewrite counts_cell, Hc. reflexivity.
        -- rewrite decide_False; [reflexivity|].
           intros Hmem'. apply elem_of_cons in Hmem' as [Heq|Hmem']; [|done].
           injection Heq as <- <-. apply Hne. split; lia.
Qed.

(** ** Facts of binary64 arithmetic *)


Section SpecFloats.

Let mulS := SFmul prec emax.
Let addS := SFadd prec emax.
Let subS := SFsub prec emax.
Let sqrtS := SFsqrt prec emax.

Lemma sf_same_refl (u : spec_float) : sf_same u u.
Proof. destruct u; simpl; trivial. Qed.

Lemma sf_same_sym (u v : spec_float) : sf_same u v -> sf_same v u.
Proof. destruct u, v; simpl; intros H; trivial; try discriminate; symmetry; exact H. Qed.

Lemma sf_same_trans (u v w : spec_float) :
  sf_same u v -> sf_same v w -> sf_same u w.
Proof.
  destruct u, v; simpl; intros H1; try discriminate; try (injection H1 as -> || idtac);
    destruct w; simpl; intros H2; trivial; try discriminate; congruence.
Qed.

Lemma sf_same_eq (u v : spec_float) : u = v -> sf_same u v.
Proof. intros ->. apply sf_same_refl. Qed.

Lemma SFopp_involutive (u : spec_float) : SFopp (SFopp u) = u.
Proof. destruct u; simpl; rewrite ?negb_involutive; reflexivity. Qed.

Lemma SFopp_same (u v : spec_float) : sf_same u v -> sf_same (SFopp u) (SFopp v).
Proof. destruct u, v; simpl; intros H; trivial; try discriminate; congruence. Qed.

Lemma SFabs_opp (u : spec_float) : SFabs (SFopp u) = SFabs u.
Proof. destruct u; reflexivity. Qed.

Lemma SFabs_same (u v : spec_float) : sf_same u v -> SFabs u = SFabs v.
Proof. destruct u, v; simpl; intros H; trivial; try discriminate; congruence. Qed.

Lemma binary_round_aux_opp (s : bool) (m e : Z) (l : location) :
  binary_round_aux prec emax (negb s) m e l =
  SFopp (binary_round_aux prec emax s m e l).
Proof.
  unfold binary_round_aux.
  destruct (shr_fexp prec emax m e l) as [mrs e1].
  destruct (shr_fexp prec emax _ e1 loc_Exact) as [mrs2 e2].
  destruct (shr_m mrs2); [reflexivity| |reflexivity].
  destruct (e2 <=? emax - prec); reflexivity.
Qed.

Lemma binary_round_opp (s : bool) (m : positive) (e : Z) :
  binary_round prec emax (negb s) m e = SFopp (binary_round prec emax s m e).
Proof.
  unfold binary_round. destruct (shl_align m e _) as [mz ez].
  apply binary_round_aux_opp.
Qed.

Lemma binary_normalize_opp (m e : Z) :
  sf_same (binary_normalize prec emax (- m) e false)
          (SFopp (binary_normalize prec emax m e false)).
Proof.
  destruct m as [|p|p]; simpl.
  - trivial.
  - apply sf_same_eq. exact (binary_round_opp false p e).
  - apply sf_same_eq. rewrite <- (binary_round_opp true p e). reflexivity.
Qed.

Lemma cond_Zopp_negb (s : bool) (m : Z) : cond_Zopp (negb s) m = - cond_Zopp s m.
Proof. destruct s; simpl; lia. Qed.

Lemma mulS_opp_l (u v : spec_float) : mulS (SFopp u) v = SFopp (mulS u v).
Proof.
  destruct u as [s|s| |s m e], v as [t|t| |t n f]; simpl; try reflexivity;
    try (rewrite negb_xorb_l; reflexivity).
  rewrite <- binary_round_aux_opp, negb_xorb_l. reflexivity.
Qed.

Lemma mulS_opp_r (u v : spec_float) : mulS u (SFopp v) = SFopp (mulS u v).
Proof.
  destruct u as [s|s| |s m e], v as [t|t| |t n f]; simpl; try reflexivity;
    try (rewrite negb_xorb_r; reflexivity).
  rewrite <- binary_round_aux_opp, negb_xorb_r. reflexivity.
Qed.

Lemma mulS_same (u u' v v' : spec_float) :
  sf_same u u' -> sf_same v v' -> sf_same (mulS u v) (mulS u' v').
Proof.
  intros Hu Hv.
  destruct u as [s|s| |s m e], u' as [s'|s'| |s' m' e']; simpl in Hu;
    try discriminate; simplify_eq;
    destruct v as [t|t| |t n f], v' as [t'|t'| |t' n' f']; simpl in Hv;
    try discriminate; simplify_eq;
    simpl; trivial; apply sf_same_refl.
Qed.

Lemma addS_same (u u' v v' : spec_float) :
  sf_same u u' -> sf_same v v' -> sf_same (addS u v) (addS u' v').
Proof.
  intros Hu Hv.
  destruct u as [s|s| |s m e], u' as [s'|s'| |s' m' e']; simpl in Hu;
    try discriminate; simplify_eq;
    destruct v as [t|t| |t n f], v' as [t'|t'| |t' n' f']; simpl in Hv;
    try discriminate; simplify_eq;
    try apply sf_same_refl;
    unfold addS, SFadd;
    repeat match goal with b : bool |- _ => destruct b end; simpl; trivial.
Qed.

Lemma subS_same (u u' v v' : spec_float) :
  sf_same u u' -> sf_same v v' -> sf_same (subS u v) (subS u' v').
Proof.
  intros Hu Hv.
  destruct u as [s|s| |s m e], u' as [s'|s'| |s' m' e']; simpl in Hu;
    try discriminate; simplify_eq;
    destruct v as [t|t| |t n f], v' as [t'|t'| |t' n' f']; simpl in Hv;
    try discriminate; simplify_eq;
    try apply sf_same_refl;
    unfold subS, SFsub;
    repeat match goal with b : bool |- _ => destruct b end; simpl; trivial.
Qed.

Lemma addS_opp (u v : spec_float) :
  sf_same (addS (SFopp u) (SFopp v)) (SFopp (addS u v)).
Proof.
  destruct u as [s|s| |s m e], v as [t|t| |t n f];
    try (unfold addS, SFadd, SFopp;
         repeat match goal with b : bool |- _ => destruct b end;
         simpl; trivial; fail).
  unfold addS, SFadd, SFopp. rewrite !cond_Zopp_negb, <- Z.opp_add_distr.
  apply binary_normalize_opp.
Qed.

Lemma sqrtS_same (u v : spec_float) : sf_same u v -> sf_same (sqrtS u) (sqrtS v).
Proof.
  intros H. destruct u, v; simpl in H; try discriminate; simplify_eq;
    try apply sf_same_refl. exact I.
Qed.

Lemma SFcompare_same_r (w u v : spec_float) :
  sf_same u v -> SFcompare w u = SFcompare w v.
Proof.
  intros H. destruct u, v; simpl in H; try discriminate; simplify_eq;
    try reflexivity; destruct w; reflexivity.
Qed.

Lemma SFcompare_same_l (w u v : spec_float) :
  sf_same u v -> SFcompare u w = SFcompare v w.
Proof.
  intros H. destruct u, v; simpl in H; try discriminate; simplify_eq;
    try reflexivity; destruct w; reflexivity.
Qed.

End SpecFloats.

(** ** Floats up to the sign of zero, and conjugation *)

Section Same.

Implicit Types a b w : float.

Lemma same_refl a : same a a.
Proof. apply sf_same_refl. Qed.

Lemma same_sym a b : same a b -> same b a.
Proof. apply sf_same_sym. Qed.

Lemma same_trans a b w : same a b -> same b w -> same a w.
Proof. apply sf_same_trans. Qed.

Lemma same_eq a b : a = b -> same a b.
Proof. intros ->. apply same_refl. Qed.

Lemma mul_same a a' b b' : same a a' -> same b b' -> same (a * b) (a' * b').
Proof. unfold same. rewrite !mul_spec. apply mulS_same. Qed.

Lemma add_same a a' b b' : same a a' -> same b b' -> same (a + b) (a' + b').
Proof. unfold same. rewrite !add_spec. apply addS_same. Qed.

Lemma sub_same a a' b b' : same a a' -> same b b' -> same (a - b) (a' - b').
Proof. unfold same. rewrite !sub_spec. apply subS_same. Qed.

Lemma sqrt_same a b : same a b -> same (PrimFloat.sqrt a) (PrimFloat.sqrt b).
Proof. unfold same. rewrite !sqrt_spec. apply sqrtS_same. Qed.

Lemma opp_same a b : same a b -> same (- a) (- b).
Proof. unfold same. rewrite !opp_spec. apply SFopp_same. Qed.

Lemma opp_involutive a : (- - a)%float = a.
Proof. apply Prim2SF_inj. rewrite !opp_spec. apply SFopp_involutive. Qed.

Lemma mul_opp_l a b : (- a * b)%float = (- (a * b))%float.
Proof. apply Prim2SF_inj. rewrite opp_spec, !mul_spec, opp_spec. apply mulS_opp_l. Qed.

Lemma mul_opp_r a b : (a * - b)%float = (- (a * b))%float.
Proof. apply Prim2SF_inj. rewrite opp_spec, !mul_spec, opp_spec. apply mulS_opp_r. Qed.

Lemma mul_opp_opp a b : (- a * - b)%float = (a * b)%float.
Proof. rewrite mul_opp_l, mul_opp_r. apply opp_involutive. Qed.

Lemma add_opp_opp a b : same (- a + - b) (- (a + b)).
Proof. unfold same. rewrite opp_spec, !add_spec, !opp_spec. apply addS_opp. Qed.

Lemma ltb_same_r w a b : same a b -> (w <? a)%float = (w <? b)%float.
Proof.
  intros H. rewrite !FloatAxioms.ltb_spec. unfold SFltb.
  rewrite (SFcompare_same_r _ _ _ H). reflexivity.
Qed.

Lemma is_infinity_same a b : same a b -> is_infinity a = is_infinity b.
Proof.
  intros H. unfold is_infinity. rewrite !FloatAxioms.eqb_spec, !abs_spec.
  rewrite (SFabs_same _ _ H). reflexivity.
Qed.

Lemma is_infinity_opp a : is_infinity (- a) = is_infinity a.
Proof.
  unfold is_infinity. rewrite !FloatAxioms.eqb_spec, !abs_spec, opp_spec, SFabs_opp. reflexivity.
Qed.

Lemma hypot_same a a' b b' :
  same a a' -> same b b' -> same (Np.hypot a b) (Np.hypot a' b').
Proof.
  intros Ha Hb. unfold Np.hypot.
  rewrite (is_infinity_same _ _ Ha), (is_infinity_same _ _ Hb).
  destruct (is_infinity a' || is_infinity b'); [apply same_refl|].
  apply sqrt_same, add_same; apply mul_same; assumption.
Qed.

Lemma hypot_opp_r a b : Np.hypot a (- b) = Np.hypot a b.
Proof. unfold Np.hypot. rewrite is_infinity_opp, mul_opp_opp. reflexivity. Qed.

End Same.

Lemma conj_rel_conj (c : complex) : conj_rel c (conj c).
Proof. split; apply same_refl. Qed.

Lemma escaped_conj (z z' : complex) : conj_rel z z' -> escaped z' = escaped z.
Proof.
  intros [Hre Him]. unfold escaped, cabs.
  rewrite (ltb_same_r _ _ _ (hypot_same _ _ _ _ Hre Him)).
  rewrite hypot_opp_r. reflexivity.
Qed.

Lemma step_conj (c c' z z' : complex) :
  conj_rel c c' -> conj_rel z z' -> conj_rel (step c z) (step c' z').
Proof.
  intros [Hcre Hcim] [Hre Him]. unfold conj_rel, step, cadd, cpow2, cmul. simpl. split.
  - apply add_same; [|exact Hcre].
    apply sub_same; [apply mul_same; assumption|].
    eapply same_trans; [apply mul_same; eassumption|].
    apply same_eq, mul_opp_opp.
  - eapply same_trans; [|apply add_opp_opp].
    apply add_same; [|exact Hcim].
    eapply same_trans; [|apply add_opp_opp].
    apply add_same.
    + eapply same_trans; [apply mul_same; eassumption|].
      apply same_eq, mul_opp_r.
    + eapply same_trans; [apply mul_same; eassumption|].
      apply same_eq, mul_opp_l.
Qed.

Lemma mandelbrot_for_conj (c c' : complex) (ns : list Z) (z z' : complex) :
  conj_rel c c' -> conj_rel z z' ->
  mandelbrot_for c' ns z' = mandelbrot_for c ns z.
Proof.
  intros Hc. revert z z'.
  induction ns as [|n ns IH]; intros z z' Hrel; simpl; [reflexivity|].
  rewrite (escaped_conj z z' Hrel).
  destruct (escaped z); [reflexivity|].
  apply IH, step_conj; assumption.
Qed.

(** Two points that are conjugates up to the sign of zero have the same
    count. *)
Lemma mandelbrot_conj_rel (c c' : complex) (M : Z) :
  conj_rel c c' -> mandelbrot c' M = mandelbrot c M.
Proof.
  intros Hc. unfold mandelbrot.
  rewrite (mandelbrot_for_conj c c' _ c c' Hc Hc). reflexivity.
Qed.

Lemma mandelbrot_conj (c : complex) (M : Z) :
  mandelbrot (conj c) M = mandelbrot c M.
Proof. apply mandelbrot_conj_rel, conj_rel_conj. Qed.

(** The grid point [x + 1j*y] and its mirror image [x + 1j*(-y)]. *)
Lemma zero_mul_opp (b : float) : same (0 * - b) (0 * b).
Proof.
  rewrite mul_opp_r. unfold same. rewrite opp_spec, mul_spec.
  destruct (Prim2SF b); simpl; trivial.
Qed.

Lemma zero_add_opp (b : float) : same (0 + - b) (- (0 + b)).
Proof.
  unfold same. rewrite opp_spec, !add_spec, opp_spec.
  destruct (Prim2SF b) as [[|]|[|]| |[|] m e]; simpl; trivial.
Qed.

Lemma grid_point_conj (a b : float) :
  conj_rel (cadd (of_real a) (cmul j1 (of_real b)))
           (cadd (of_real a) (cmul j1 (of_real (- b)))).
Proof.
  unfold conj_rel, cadd, cmul, of_real, j1. simpl. split.
  - apply add_same; [apply same_refl|].
    apply sub_same; [apply zero_mul_opp | apply same_refl].
  - change (0 * 0)%float with 0%float.
    eapply same_trans; [|apply zero_add_opp].
    apply add_same; [apply same_refl|].
    rewrite mul_opp_r. apply zero_add_opp.
Qed.

(** ** Running the script *)

Lemma linspace_negative (lo hi : float) (num : Z) :
  num < 0 -> Np.linspace lo hi num = None.
Proof.
  intros Hn. unfold Np.linspace. destruct (Z.ltb_spec num 0); [reflexivity | lia].
Qed.

Lemma linspace_length (lo hi : float) (num : Z) :
  0 <= num ->
  exists l, Np.linspace lo hi num = Some l /\ length l = Z.to_nat num.
Proof.
  intros Hn. unfold Np.linspace. destruct (Z.ltb_spec num 0); [lia|].
  eexists. split; [reflexivity|].
  assert (forall l : list float,
    length (if 1 <? num then <[(length l - 1)%nat := hi]> l else l) = length l)
    as Hlast.
  { intros l. destruct (1 <? num); [apply length_insert | reflexivity]. }
  rewrite Hlast, length_map.
  destruct (0 <? num - 1); [destruct (_ =? _)%float|];
    rewrite !length_map, range_length; reflexivity.
Qed.

Section Run.

Variables (width height : Z) (lo hi : float) (max_iterations : Z).

Lemma setup_run (g : globals) :
  0 <= width -> 0 <= height ->
  exists xs ys ms,
    Np.linspace lo hi width = Some xs /\ length xs = Z.to_nat width /\
    Np.linspace lo hi height = Some ys /\ length ys = Z.to_nat height /\
    shape (Z.to_nat height) (Z.to_nat width) ms /\
    setup width height lo hi g =
      Some (Globals (Some xs) (Some ys)
              (Some (fst (Np.meshgrid xs ys))) (Some (snd (Np.meshgrid xs ys)))
              (Some (grid xs ys)) (Some ms)).
Proof.
  intros Hw Hh.
  destruct (linspace_length lo hi width Hw) as (xs & Hxs & Hlx).
  destruct (linspace_length lo hi height Hh) as (ys & Hys & Hly).
  destruct (zeros_shape height width Hh Hw) as (ms & Hms & Hshape).
  exists xs, ys, ms. repeat (split; [assumption|]).
  unfold setup, then_, assign_x, assign_y, assign_X_Y, assign_C,
    assign_mandelbrot_set.
  rewrite Hxs, Hys, Hms. reflexivity.
Qed.

Lemma setup_fails (g : globals) :
  width < 0 \/ height < 0 -> setup width height lo hi g = None.
Proof.
  intros Hneg. unfold setup, then_, assign_x, assign_y.
  destruct (Z.ltb_spec width 0) as [Hw|Hw].
  - rewrite (linspace_negative lo hi width Hw). reflexivity.
  - destruct (linspace_length lo hi width Hw) as (xs & -> & _).
    rewrite (linspace_negative lo hi height) by lia. reflexivity.
Qed.

(** Any order that visits exactly the grid points of the two loops ends
    with the globals of [outcome], whatever was bound before. *)
Lemma script_in_outcome (order : list (Z * Z)) (g : globals) :
  (forall p, p ∈ order <-> p ∈ loop_order width height) ->
  script_in width height lo hi max_iterations order g =
  outcome width height lo hi max_iterations.
Proof.
  intros Horder. unfold script_in, then_.
  destruct (decide (0 <= width /\ 0 <= height)) as [[Hw Hh]|Hneg].
  - destruct (setup_run g Hw Hh)
      as (xs & ys & ms & Hxs & Hlx & Hys & Hly & Hshape & ->).
    unfold outcome. rewrite Hxs, Hys. simpl.
    pose proof (grid_shape xs ys) as Hgrid. rewrite Hlx, Hly in Hgrid.
    edestruct (fill_in_spec max_iterations order _ _ _ Hgrid)
      as (ms' & -> & Hshape' & Hcells);
      [ | reflexivity | reflexivity | exact Hshape | ].
    + intros p Hp. apply Horder, loop_order_elem in Hp. lia.
    + unfold set_mandelbrot_set. simpl. do 3 f_equal.
      apply (shape_cells_eq _ _ _ _ Hshape' (counts_shape _ _ _ _ Hgrid)).
      intros j i Hj Hi. rewrite (Hcells j i Hj Hi).
      rewrite decide_True; [reflexivity|].
      apply Horder, loop_order_elem. simpl. lia.
  - rewrite setup_fails by lia. unfold outcome.
    destruct (Z.ltb_spec width 0) as [Hw|Hw].
    + rewrite (linspace_negative lo hi width Hw). reflexivity.
    + destruct (linspace_length lo hi width Hw) as (xs & -> & _).
      rewrite (linspace_negative lo hi height) by lia. reflexivity.
Qed.

Lemma script_outcome (g : globals) :
  script width height lo hi max_iterations g =
  outcome width height lo hi max_iterations.
Proof.
  rewrite <- (script_in_outcome (loop_order width height) g) by reflexivity.
  unfold script, script_in, then_.
  destruct (setup width height lo hi g) as [g'|]; simpl; [|reflexivity].
  apply fill_loop_order.
Qed.

End Run.

(** ** The evaluator: results *)

Lemma escape_time_unique (c : complex) (M n1 n2 : Z) :
  escape_time c M n1 -> escape_time c M n2 -> n1 = n2.
Proof.
  intros [(H1 & E1 & B1)|[-> B1]] [(H2 & E2 & B2)|[-> B2]].
  - destruct (Z.lt_trichotomy n1 n2) as [Hlt|[Heq|Hgt]]; [|exact Heq|].
    + rewrite B2 in E1 by lia. discriminate.
    + rewrite B1 in E2 by lia. discriminate.
  - rewrite B2 in E1 by lia. discriminate.
  - rewrite B1 in E2 by lia. discriminate.
  - reflexivity.
Qed.

Lemma mandelbrot_escape_time (c : complex) (M : Z) :
  0 <= M -> escape_time c M (mandelbrot c M).
Proof.
  intros HM.
  destruct (mandelbrot_cases c M HM) as [[-> Hnone]|(k & -> & Hk & Hesc & Hbefore)].
  - right. split; [reflexivity|]. intros k Hk. apply Hnone. lia.
  - left. split; [lia|]. rewrite Nat2Z.id. split; [exact Hesc|].
    intros i Hi. apply Hbefore. lia.
Qed.





Lemma orbit_zero (k : nat) : orbit (Complex 0 0) k = Complex 0 0.
Proof. induction k as [|k IH]; simpl; [reflexivity|]. rewrite IH. reflexivity. Qed.

(** C6. The origin never escapes: every iterate of [c = 0] is [0], and
    [mandelbrot 0 M = M] for every bound [M] that is not negative. *)
Theorem mandelbrot_origin (M : Z) :
  0 <= M ->
  mandelbrot (Complex 0 0) M = M /\ forall k, orbit (Complex 0 0) k = Complex 0 0.
Proof.
  intros HM. split; [|exact orbit_zero].
  destruct (mandelbrot_cases (Complex 0 0) M HM) as [[H _]|(k & _ & _ & Hesc & _)].
  - exact H.
  - rewrite orbit_zero in Hesc. discriminate Hesc.
Qed.

Lemma mandelbrot_origin_witness : 0 <= 50 /\ mandelbrot (Complex 0 0) 50 = 50.
Proof. split; [lia|]. exact (proj1 (mandelbrot_origin 50 ltac:(lia))). Defined.

(** C7. For a fixed [c] the count does not decrease with the bound: for
    bounds [0 <= M1 <= M2], [mandelbrot c M1 <= mandelbrot c M2]. *)
Theorem mandelbrot_monotone (c : complex) (M1 M2 : Z) :
  0 <= M1 -> M1 <= M2 -> mandelbrot c M1 <= mandelbrot c M2.
Proof.
  intros H1 H12.
  destruct (mandelbrot_cases c M1 H1) as [[-> Hnone1]|(k1 & -> & Hk1 & Hesc1 & Hbefore1)];
    destruct (mandelbrot_cases c M2 ltac:(lia))
      as [[-> Hnone2]|(k2 & -> & Hk2 & Hesc2 & Hbefore2)]; try lia.
  - destruct (Z.le_gt_cases M1 (Z.of_nat k2)) as [Hle|Hgt]; [exact Hle|].
    rewrite Hnone1 in Hesc2 by exact Hgt. discriminate.
  - destruct (Z.le_gt_cases (Z.of_nat k1) (Z.of_nat k2)) as [Hle|Hgt]; [exact Hle|].
    rewrite Hbefore1 in Hesc2 by lia. discriminate.
Qed.

Lemma mandelbrot_monotone_witness :
  0 <= 1 /\ 1 <= 5 /\
  mandelbrot (Complex (-1) (-1)) 1 <= mandelbrot (Complex (-1) (-1)) 5.
Proof.
  split; [lia|]. split; [lia|].
  apply (mandelbrot_monotone (Complex (-1) (-1)) 1 5); lia.
Defined.

(** ** The script: results *)

Lemma outcome_run (width height : Z) (lo hi : float) (M : Z) :
  0 <= width -> 0 <= height ->
  exists xs ys,
    Np.linspace lo hi width = Some xs /\ length xs = Z.to_nat width /\
    Np.linspace lo hi height = Some ys /\ length ys = Z.to_nat height /\
    outcome width height lo hi M =
      Some (Globals (Some xs) (Some ys)
              (Some (fst (Np.meshgrid xs ys))) (Some (snd (Np.meshgrid xs ys)))
              (Some (grid xs ys)) (Some (counts M (grid xs ys)))).
Proof.
  intros Hw Hh.
  destruct (linspace_length lo hi width Hw) as (xs & Hxs & Hlx).
  destruct (linspace_length lo hi height Hh) as (ys & Hys & Hly).
  exists xs, ys. repeat (split; [assumption|]).
  unfold outcome. rewrite Hxs, Hys. reflexivity.
Qed.

(** Every entry of a field the script leaves is the float of a count. *)
Lemma outcome_entries (width height : Z) (lo hi : float) (M : Z)
    (g : globals) (field : list (list float)) (row : list float) (e : float) :
  outcome width height lo hi M = Some g -> mandelbrot_set g = Some field ->
  row ∈ field -> e ∈ row ->
  exists c, e = Py.float_of_int (mandelbrot c M).
Proof.
  unfold outcome. intros Hout Hfield Hrow He.
  destruct (Np.linspace lo hi width) as [xs|]; simpl in Hout; [|discriminate].
  destruct (Np.linspace lo hi height) as [ys|]; simpl in Hout; [|discriminate].
  injection Hout as <-. simpl in Hfield. injection Hfield as <-.
  unfold counts in Hrow. apply list_elem_of_fmap in Hrow as (crow & -> & _).
  apply list_elem_of_fmap in He as (c & -> & _). exists c. reflexivity.
Qed.

(** The cells of the field, read the way the script indexes them. *)
Lemma outcome_cells (xs ys : list float) (M j i : Z) :
  0 <= j < Z.of_nat (length ys) -> 0 <= i < Z.of_nat (length xs) ->
  exists xi yj,
    Np.getitem xs i = Some xi /\ Np.getitem ys j = Some yj /\
    Np.getitem2 (counts M (grid xs ys)) j i =
      Some (Py.float_of_int
              (mandelbrot (cadd (of_real xi) (cmul j1 (of_real yj))) M)).
Proof.
  intros Hj Hi.
  destruct (lookup_lt_is_Some_2 xs (Z.to_nat i)) as [xi Hxi]; [lia|].
  destruct (lookup_lt_is_Some_2 ys (Z.to_nat j)) as [yj Hyj]; [lia|].
  exists xi, yj.
  rewrite <- (Z2Nat.id i), <- (Z2Nat.id j) by lia.
  rewrite !getitem_nat by lia. split; [exact Hxi|]. split; [exact Hyj|].
  rewrite (getitem2_cell _ (length ys) (length xs))
    by (try apply counts_shape, grid_shape; lia).
  rewrite counts_cell, (grid_cell xs ys _ _ xi yj Hyj Hxi). reflexivity.
Qed.

Lemma shape_rows {A : Type} (a : list (list A)) (rows cols : nat) (row : list A) :
  shape rows cols a -> row ∈ a -> length row = cols.
Proof.
  intros [_ Hcols] Hrow. apply list_elem_of_lookup in Hrow as [r Hr].
  exact (Hcols _ _ Hr).
Qed.

(** C2. The script as it stands, started from any globals, ends with a
    field of 400 rows of 400 entries whose entry in row [j], column [i] is
    (the float of) [mandelbrot(x[i] + 1j*y[j], 50)] for the two coordinate
    sequences [x] and [y]; and visiting the grid points in any other order
    (any permutation of the order of the two loops) ends with the same
    globals. *)
Theorem program_field_entries (g0 : globals) :
  exists g xs ys field,
    program g0 = Some g /\
    x g = Some xs /\ y g = Some ys /\ mandelbrot_set g = Some field /\
    Np.linspace (-2) 2 400 = Some xs /\ Np.linspace (-2) 2 400 = Some ys /\
    length field = 400%nat /\
    (forall row, row ∈ field -> length row = 400%nat) /\
    (forall j i, 0 <= j < 400 -> 0 <= i < 400 ->
       exists xi yj,
         Np.getitem xs i = Some xi /\ Np.getitem ys j = Some yj /\
         Np.getitem2 field j i =
           Some (Py.float_of_int
                   (mandelbrot (cadd (of_real xi) (cmul j1 (of_real yj))) 50))) /\
    (forall order, order ≡ₚ loop_order 400 400 ->
       script_in 400 400 (-2) 2 50 order g0 = Some g).
Proof.
  destruct (outcome_run 400 400 (-2) 2 50) as (xs & ys & Hxs & Hlx & Hys & Hly & Hout);
    [lia | lia |].
  eexists _, xs, ys, _. split.
  { rewrite script_outcome. exact Hout. }
  do 3 (split; [reflexivity|]). split; [exact Hxs|]. split; [exact Hys|].
  pose proof (counts_shape 50 _ _ _ (grid_shape xs ys)) as Hshape.
  split; [destruct Hshape as [-> _]; rewrite Hly; reflexivity|].
  split.
  { intros row Hrow. rewrite (shape_rows _ _ _ _ Hshape Hrow), Hlx. reflexivity. }
  split.
  { intros j i Hj Hi. apply outcome_cells; lia. }
  intros order Horder. rewrite script_in_outcome; [exact Hout|].
  intros p. rewrite Horder. reflexivity.
Qed.

Lemma count_floats_bounded (n : Z) :
  0 <= n <= 50 ->
  (0 <=? Py.float_of_int n)%float = true /\ (Py.float_of_int n <=? 50)%float = true.
Proof.
  intros Hn.
  assert (forallb (fun k => (0 <=? Py.float_of_int k)%float &&
                            (Py.float_of_int k <=? 50)%float) (Py.range 51) = true)
    as Hall by (vm_compute; reflexivity).
  rewrite forallb_forall in Hall. specialize (Hall n).
  apply andb_prop, Hall, list_elem_of_In, range_elem. lia.
Qed.

(** C3. For a bound [M] that is not negative [mandelbrot c M] is an integer
    in [0, M]; so every entry of a field the script leaves is (the float
    of) an integer in [0, max_iterations], and every entry of the field of
    the script as it stands is a float between 0 and 50. *)
Theorem mandelbrot_bounded (c : complex) (M : Z) :
  0 <= M ->
  0 <= mandelbrot c M <= M /\
  (forall width height lo hi g g' field row e,
     script width height lo hi M g = Some g' ->
     mandelbrot_set g' = Some field -> row ∈ field -> e ∈ row ->
     exists n, 0 <= n <= M /\ e = Py.float_of_int n) /\
  (forall g g' field row e,
     program g = Some g' ->
     mandelbrot_set g' = Some field -> row ∈ field -> e ∈ row ->
     (0 <=? e)%float = true /\ (e <=? 50)%float = true).
Proof.
  intros HM. split; [exact (mandelbrot_range c M HM)|]. split.
  - intros width height lo hi g g' field row e Hrun Hfield Hrow He.
    rewrite script_outcome in Hrun.
    destruct (outcome_entries _ _ _ _ _ _ _ _ _ Hrun Hfield Hrow He) as [c' ->].
    exists (mandelbrot c' M). split; [exact (mandelbrot_range c' M HM) | reflexivity].
  - intros g g' field row e Hrun Hfield Hrow He.
    rewrite script_outcome in Hrun.
    destruct (outcome_entries _ _ _ _ _ _ _ _ _ Hrun Hfield Hrow He) as [c' ->].
    apply count_floats_bounded, mandelbrot_range. lia.
Qed.

Lemma mandelbrot_bounded_witness :
  0 <= 5 /\ 0 <= mandelbrot (Complex (-1) (-1)) 5 <= 5.
Proof.
  split; [lia|]. exact (proj1 (mandelbrot_bounded (Complex (-1) (-1)) 5 ltac:(lia))).
Defined.

(** C9. The globals a run ends with (or the error it raises) are a function
    of the configuration alone: two runs with one configuration agree
    whatever was bound before each of them, a run repeated on the globals
    it left leaves them as they are, and the Escape Field is the field of
    [outcome]. *)
Theorem script_deterministic (width height : Z) (lo hi : float)
    (max_iterations : Z) (g1 g2 : globals) :
  script width height lo hi max_iterations g1 =
    script width height lo hi max_iterations g2 /\
  (forall g', script width height lo hi max_iterations g1 = Some g' ->
     script width height lo hi max_iterations g' = Some g') /\
  escape_field width height lo hi max_iterations =
    (g ← outcome width height lo hi max_iterations; mandelbrot_set g).
Proof.
  split; [|split].
  - rewrite !script_outcome. reflexivity.
  - intros g'. rewrite !script_outcome. trivial.
  - unfold escape_field. rewrite script_outcome. reflexivity.
Qed.

(** ** The coordinate sequences and the grid: results *)

Lemma is_finite_spec (a : float) :
  is_finite a = true ->
  match Prim2SF a with
  | S754_zero _ | S754_finite _ _ _ => True
  | _ => False
  end.
Proof.
  unfold is_finite, is_nan, is_infinity.
  rewrite !FloatAxioms.eqb_spec, abs_spec.
  change (Prim2SF infinity) with (S754_infinity false).
  destruct (Prim2SF a) as [s|[|]| |s m e]; simpl; trivial; discriminate.
Qed.






(** C4, amended. In the scenario [width = height = 3], interval [-1, 1],
    [max_iterations = 5], both coordinate sequences are [-1, 0, 1], the grid
    holds the nine combinations, and the corner [c = -1-1j] has count 2:
    [abs(z)] is about 1.41 at the tests of iterations 0 and 1 and about
    3.16 at the test of iteration 2. *)
Theorem scenario_3x3 :
  script 3 3 (-1) 1 5 unbound =
    Some (Globals
      (Some [-1; 0; 1]%float) (Some [-1; 0; 1]%float)
      (Some [[-1; 0; 1]; [-1; 0; 1]; [-1; 0; 1]]%float)
      (Some [[-1; -1; -1]; [0; 0; 0]; [1; 1; 1]]%float)
      (Some [[Complex (-1) (-1); Complex 0 (-1); Complex 1 (-1)];
             [Complex (-1) 0; Complex 0 0; Complex 1 0];
             [Complex (-1) 1; Complex 0 1; Complex 1 1]])
      (Some [[2; 5; 1]; [5; 5; 2]; [2; 5; 1]]%float)) /\
  mandelbrot (Complex (-1) (-1)) 5 = 2 /\
  map (orbit (Complex (-1) (-1))) [0; 1; 2]%nat =
    [Complex (-1) (-1); Complex (-1) 1; Complex (-1) (-3)] /\
  map (fun k => escaped (orbit (Complex (-1) (-1)) k)) [0; 1; 2]%nat =
    [false; false; true].
Proof. repeat split; vm_compute; reflexivity. Qed.

(** C4 as stated fails: the count of [-1-1j] under the bound 5 is not 1. *)
Lemma scenario_count_not_1 : mandelbrot (Complex (-1) (-1)) 5 <> 1.
Proof. vm_compute. discriminate. Qed.

(** ** Conjugation and the mirror image of the field *)

Lemma mirrored_spec (M : Z) (xs ys : list float) :
  mirrored M xs ys = true ->
  forall (j i : nat) (a b b' : float),
    ys !! j = Some b -> ys !! (length ys - S j)%nat = Some b' -> xs !! i = Some a ->
    mandelbrot (point a b) M = mandelbrot (point a b') M.
Proof.
  unfold mirrored. rewrite forallb_forall. intros Hall j i a b b' Hb Hb' Ha.
  assert ((b, b') ∈ zip ys (reverse ys)) as Hin.
  { apply (list_elem_of_lookup_2 _ j). apply lookup_zip_with_Some.
    exists b, b'. split; [reflexivity|]. split; [exact Hb|].
    rewrite reverse_lookup by (eapply lookup_lt_Some, Hb). exact Hb'. }
  apply list_elem_of_In, Hall in Hin. rewrite forallb_forall in Hin.
  apply Z.eqb_eq, (Hin a), list_elem_of_In, (list_elem_of_lookup_2 _ i), Ha.
Qed.

(** The samples of the script as it stands pass the test. *)
Lemma program_mirrored :
  match Np.linspace (-2) 2 400 with
  | Some l => mirrored 50 l l
  | None => false
  end = true.
Proof. vm_compute. reflexivity. Qed.

(** The cells of two rows of a field whose points have equal counts. *)
Lemma counts_rows_agree (xs ys : list float) (M j j' i : Z) :
  0 <= j < Z.of_nat (length ys) -> 0 <= j' < Z.of_nat (length ys) ->
  0 <= i < Z.of_nat (length xs) ->
  (forall a b b', Np.getitem xs i = Some a -> Np.getitem ys j = Some b ->
     Np.getitem ys j' = Some b' ->
     mandelbrot (point a b) M = mandelbrot (point a b') M) ->
  Np.getitem2 (counts M (grid xs ys)) j i = Np.getitem2 (counts M (grid xs ys)) j' i.
Proof.
  intros Hj Hj' Hi Hsame.
  destruct (outcome_cells xs ys M j i Hj Hi) as (a & b & Ha & Hb & ->).
  destruct (outcome_cells xs ys M j' i Hj' Hi) as (a' & b' & Ha' & Hb' & ->).
  assert (a' = a) as -> by congruence.
  do 2 f_equal. exact (Hsame a b b' Ha Hb Hb').
Qed.

(** C10. The count is invariant under complex conjugation, for every [c]
    and every bound. So in any run of the script, two rows [j] and
    [height - 1 - j] whose samples of the imaginary axis are opposite
    ([y[height - 1 - j] = -y[j]]) hold the same counts, column by column.
    The field of the script as it stands is mirror-symmetric across rows:
    [field[j][i] = field[400 - 1 - j][i]] for every row [j] and column [i]
    (by evaluation of the 400 by 400 grid, whose samples in float64 are
    opposite only up to the last bit). *)
Theorem mandelbrot_conj_symmetric :
  (forall c M, mandelbrot (conj c) M = mandelbrot c M) /\
  (forall width height lo hi M g g' ys field j i b,
     script width height lo hi M g = Some g' ->
     y g' = Some ys -> mandelbrot_set g' = Some field ->
     0 <= j < height -> 0 <= i < width ->
     Np.getitem ys j = Some b -> Np.getitem ys (height - 1 - j) = Some (- b)%float ->
     Np.getitem2 field j i = Np.getitem2 field (height - 1 - j) i) /\
  (forall g0, exists g field,
     program g0 = Some g /\ mandelbrot_set g = Some field /\
     forall j i, 0 <= j < 400 -> 0 <= i < 400 ->
       Np.getitem2 field j i = Np.getitem2 field (400 - 1 - j) i).
Proof.
  split; [exact mandelbrot_conj|]. split.
  - intros width height lo hi M g g' ys field j i b Hrun Hy Hfield Hj Hi Hb Hb'.
    rewrite script_outcome in Hrun.
    destruct (outcome_run width height lo hi M) as (xs & ys' & _ & Hlx & _ & Hly & Hout);
      [lia | lia |].
    rewrite Hout in Hrun. injection Hrun as <-. simpl in Hy, Hfield.
    injection Hy as <-. injection Hfield as <-.
    apply counts_rows_agree; try lia.
    intros a b0 b0' _ Hb0 Hb0'.
    assert (b0 = b) as -> by congruence.
    assert (b0' = (- b)%float) as -> by congruence.
    symmetry. apply mandelbrot_conj_rel, grid_point_conj.
  - intros g0.
    destruct (outcome_run 400 400 (-2) 2 50) as (xs & ys & Hxs & Hlx & Hys & Hly & Hout);
      [lia | lia |].
    eexists _, _. split; [rewrite script_outcome; exact Hout|].
    split; [reflexivity|].
    assert (ys = xs) as -> by congruence.
    pose proof program_mirrored as Hmir. rewrite Hxs in Hmir.
    intros j i Hj Hi. apply counts_rows_agree; try lia.
    intros a b b' Ha Hb Hb'.
    rewrite <- (Z2Nat.id i), getitem_nat in Ha by lia.
    rewrite <- (Z2Nat.id j), getitem_nat in Hb by lia.
    rewrite <- (Z2Nat.id (400 - 1 - j)), getitem_nat in Hb' by lia.
    apply (mirrored_spec 50 xs xs Hmir (Z.to_nat j) (Z.to_nat i) a b b' Hb); [|exact Ha].
    rewrite <- Hb'. f_equal. lia.
Qed.

(** ** The evaluator: edge cases *)

(** A bound that is zero or negative: the range is empty. *)
Theorem mandelbrot_nonpositive_bound (c : complex) (M : Z) :
  M <= 0 -> mandelbrot c M = M /\ Py.range M = [].
Proof.
  intros HM. unfold mandelbrot, Py.range.
  replace (Z.to_nat M) with 0%nat by lia. split; reflexivity.
Qed.

Lemma mandelbrot_nonpositive_bound_witness :
  -3 <= 0 /\ mandelbrot (Complex 3 0) (-3) = -3.
Proof.
  split; [lia|]. exact (proj1 (mandelbrot_nonpositive_bound (Complex 3 0) (-3) ltac:(lia))).
Defined.

Lemma mandelbrot_cut (c : complex) (M1 M2 : Z) :
  0 <= M1 -> M1 <= M2 -> mandelbrot c M1 = Z.min M1 (mandelbrot c M2).
Proof.
  intros H1 H12.
  apply (escape_time_unique c M1); [apply mandelbrot_escape_time, H1|].
  destruct (mandelbrot_escape_time c M2 ltac:(lia)) as [(Hr & Hesc & Hbefore)|[Hr Hnone]].
  - destruct (Z.lt_ge_cases (mandelbrot c M2) M1) as [Hlt|Hge].
    + rewrite Z.min_r by lia. left. split; [lia|]. split; assumption.
    + rewrite Z.min_l by lia. right. split; [reflexivity|].
      intros k Hk. apply Hbefore. lia.
  - rewrite Hr, Z.min_l by lia. right. split; [reflexivity|].
    intros k Hk. apply Hnone. lia.
Qed.

(** The count under a smaller bound is the count under a larger bound, cut
    off at the smaller bound: a count below the bound does not change when
    the bound grows. *)
Theorem mandelbrot_truncates (c : complex) (M1 M2 : Z) :
  0 <= M1 -> M1 <= M2 ->
  mandelbrot c M1 = Z.min M1 (mandelbrot c M2) /\
  (mandelbrot c M1 < M1 -> mandelbrot c M2 = mandelbrot c M1).
Proof.
  intros H1 H12. pose proof (mandelbrot_cut c M1 M2 H1 H12) as Hcut.
  split; [exact Hcut|]. lia.
Qed.

Lemma mandelbrot_truncates_witness :
  0 <= 1 /\ 1 <= 5 /\
  mandelbrot (Complex (-1) (-1)) 1 = Z.min 1 (mandelbrot (Complex (-1) (-1)) 5).
Proof.
  split; [lia|]. split; [lia|].
  apply (mandelbrot_truncates (Complex (-1) (-1)) 1 5); lia.
Defined.



(** Not-a-number and infinite samples. *)
Section NonFinite.

Lemma is_nan_eq (a : float) : is_nan a = true -> a = nan.
Proof.
  unfold is_nan. rewrite FloatAxioms.eqb_spec. intros H.
  apply Prim2SF_inj. change (Prim2SF nan) with S754_nan.
  destruct (Prim2SF a) as [s|[|]| |[|] m e]; try reflexivity; simpl in H;
    try discriminate H.
  - unfold SFeqb, SFcompare in H. rewrite Z.compare_refl, Pos.compare_cont_refl in H.
    discriminate H.
  - unfold SFeqb, SFcompare in H. rewrite Z.compare_refl, Pos.compare_cont_refl in H.
    discriminate H.
Qed.

Lemma mul_nan_l (a : float) : (nan * a)%float = nan.
Proof. apply Prim2SF_inj. rewrite mul_spec. reflexivity. Qed.

Lemma mul_nan_r (a : float) : (a * nan)%float = nan.
Proof.
  apply Prim2SF_inj. rewrite mul_spec. change (Prim2SF nan) with S754_nan.
  destruct (Prim2SF a); reflexivity.
Qed.

Lemma add_nan_l (a : float) : (nan + a)%float = nan.
Proof. apply Prim2SF_inj. rewrite add_spec. reflexivity. Qed.

Lemma add_nan_r (a : float) : (a + nan)%float = nan.
Proof.
  apply Prim2SF_inj. rewrite add_spec. change (Prim2SF nan) with S754_nan.
  destruct (Prim2SF a); reflexivity.
Qed.

Lemma sub_nan_l (a : float) : (nan - a)%float = nan.
Proof. apply Prim2SF_inj. rewrite sub_spec. reflexivity. Qed.

Lemma sub_nan_r (a : float) : (a - nan)%float = nan.
Proof.
  apply Prim2SF_inj. rewrite sub_spec. change (Prim2SF nan) with S754_nan.
  destruct (Prim2SF a); reflexivity.
Qed.

(** An iterate with a NaN component and no infinite one fails the test,
    and the next iterate is NaN in both components. *)
Lemma escaped_nan (z : complex) :
  real z = nan \/ imag z = nan ->
  is_infinity (real z) = false -> is_infinity (imag z) = false ->
  escaped z = false.
Proof.
  intros Hnan Hre Him. unfold escaped, cabs, Np.hypot. rewrite Hre, Him. simpl.
  destruct Hnan as [-> | ->].
  - rewrite mul_nan_l, add_nan_l. reflexivity.
  - rewrite mul_nan_l, add_nan_r. reflexivity.
Qed.

Lemma step_nan (c z : complex) :
  real z = nan \/ imag z = nan -> step c z = Complex nan nan.
Proof.
  intros Hnan. unfold step, cadd, cpow2, cmul. simpl.
  destruct Hnan as [-> | ->].
  - rewrite !mul_nan_l, sub_nan_l, mul_nan_r, !add_nan_l. reflexivity.
  - rewrite !mul_nan_l, sub_nan_r, mul_nan_r, add_nan_r, !add_nan_l. reflexivity.
Qed.

Lemma orbit_nan (c : complex) (k : nat) :
  real c = nan \/ imag c = nan -> orbit c (S k) = Complex nan nan.
Proof.
  intros Hnan. induction k as [|k IH].
  - exact (step_nan c c Hnan).
  - change (orbit c (S (S k))) with (step c (orbit c (S k))).
    rewrite IH. apply step_nan. left. reflexivity.
Qed.

End NonFinite.

(** A sample with a NaN component (and no infinite one) never passes the
    test: its count is the bound. *)
Theorem mandelbrot_nan (c : complex) (M : Z) :
  is_nan (real c) = true \/ is_nan (imag c) = true ->
  is_infinity (real c) = false -> is_infinity (imag c) = false ->
  0 <= M -> mandelbrot c M = M.
Proof.
  intros Hnan Hre Him HM.
  assert (real c = nan \/ imag c = nan) as Hnan'.
  { destruct Hnan as [H|H]; [left|right]; exact (is_nan_eq _ H). }
  destruct (mandelbrot_cases c M HM) as [[H _]|(k & _ & _ & Hesc & _)]; [exact H|].
  exfalso. destruct k as [|k].
  - simpl in Hesc. rewrite (escaped_nan c Hnan' Hre Him) in Hesc. discriminate.
  - rewrite (orbit_nan c k Hnan') in Hesc. discriminate Hesc.
Qed.

Lemma mandelbrot_nan_witness :
  mandelbrot (Complex nan 1) 50 = 50.
Proof.
  apply (mandelbrot_nan (Complex nan 1) 50); [left; reflexivity | reflexivity | reflexivity | lia].
Defined.

(** A sample with an infinite component has count 0, even next to a NaN. *)
Theorem mandelbrot_infinite (c : complex) (M : Z) :
  is_infinity (real c) = true \/ is_infinity (imag c) = true ->
  1 <= M -> mandelbrot c M = 0.
Proof.
  intros Hinf HM. unfold mandelbrot, Py.range.
  destruct (Z.to_nat M) as [|m] eqn:Hm; [lia|].
  simpl. unfold escaped, cabs, Np.hypot.
  destruct Hinf as [-> | ->]; rewrite ?orb_true_r; reflexivity.
Qed.

Lemma mandelbrot_infinite_witness :
  mandelbrot (Complex nan infinity) 50 = 0.
Proof.
  apply (mandelbrot_infinite (Complex nan infinity) 50); [right; reflexivity | lia].
Defined.

(** ** The script: errors, empty grids and the progress of the loops *)



Lemma counts_grid_no_columns (M : Z) (ys : list float) :
  counts M (grid [] ys) = replicate (length ys) [].
Proof.
  unfold counts, grid, Np.add, Np.scalar_mul, Np.meshgrid. simpl.
  induction ys as [|b ys IH]; simpl; [reflexivity|]. f_equal. exact IH.
Qed.

(** A grid without columns gives a field of empty rows, and a grid
    without rows gives the empty field; the loops then run no iteration. *)
Theorem escape_field_empty (n : Z) (lo hi : float) (M : Z) (g : globals) :
  0 <= n ->
  (exists g', script 0 n lo hi M g = Some g' /\
     mandelbrot_set g' = Some (replicate (Z.to_nat n) [])) /\
  (exists g', script n 0 lo hi M g = Some g' /\ mandelbrot_set g' = Some []) /\
  loop_order 0 n = [] /\ loop_order n 0 = [].
Proof.
  intros Hn. split; [|split; [|split]].
  - destruct (outcome_run 0 n lo hi M) as (xs & ys & Hxs & Hlx & _ & Hly & Hout);
      [lia | lia |].
    eexists. split; [rewrite script_outcome; exact Hout|]. simpl.
    destruct xs; [|discriminate Hlx].
    rewrite counts_grid_no_columns, Hly. reflexivity.
  - destruct (outcome_run n 0 lo hi M) as (xs & ys & _ & _ & _ & Hly & Hout);
      [lia | lia |].
    eexists. split; [rewrite script_outcome; exact Hout|]. simpl.
    destruct ys; [reflexivity | discriminate Hly].
  - reflexivity.
  - unfold loop_order. change (Py.range 0) with (@nil Z).
    induction (Py.range n) as [|a l IH]; [reflexivity | exact IH].
Qed.

Lemma escape_field_empty_witness :
  0 <= 2 /\
  exists g', script 0 2 (-2) 2 50 unbound = Some g' /\ mandelbrot_set g' = Some [[]; []].
Proof.
  split; [lia|]. exact (proj1 (escape_field_empty 2 (-2) 2 50 unbound ltac:(lia))).
Defined.

Lemma range_NoDup (n : Z) : NoDup (Py.range n).
Proof.
  unfold Py.range. apply (NoDup_fmap_2 Z.of_nat), NoDup_seq.
Qed.

Lemma bind_length_const {A B : Type} (f : A -> list B) (n : nat) (l : list A) :
  (forall a, length (f a) = n) -> length (l ≫= f) = (length l * n)%nat.
Proof.
  intros Hf. induction l as [|a l IH]; [reflexivity|].
  rewrite bind_cons, length_app, Hf, IH. simpl. lia.
Qed.

(** The two loops visit every grid point exactly once: [width * height]
    calls of the evaluator, no cell written twice. *)
Theorem loop_order_once (width height : Z) :
  NoDup (loop_order width height) /\
  length (loop_order width height) = (Z.to_nat width * Z.to_nat height)%nat /\
  forall i j, (i, j) ∈ loop_order width height <-> 0 <= i < width /\ 0 <= j < height.
Proof.
  split; [|split].
  - unfold loop_order. apply NoDup_bind.
    + intros i1 i2 p _ _ H1 H2.
      apply list_elem_of_bind in H1 as (j1 & H1 & _).
      apply list_elem_of_bind in H2 as (j2 & H2 & _).
      apply list_elem_of_singleton in H1. apply list_elem_of_singleton in H2.
      congruence.
    + intros i _. apply NoDup_bind; [| |apply range_NoDup].
      * intros j1 j2 p _ _ H1 H2.
        apply list_elem_of_singleton in H1. apply list_elem_of_singleton in H2.
        congruence.
      * intros j _. apply NoDup_singleton.
    + apply range_NoDup.
  - unfold loop_order.
    rewrite (bind_length_const _ (Z.to_nat height)), range_length; [reflexivity|].
    intros i. rewrite (bind_length_const _ 1%nat), range_length; [lia|].
    reflexivity.
  - intros i j. exact (loop_order_elem width height (i, j)).
Qed.




(** The second [X, Y = np.meshgrid(x, y)] of the script, after the loops,
    changes nothing: [X] and [Y] already hold the mesh of [x] and [y]. *)
Theorem meshgrid_again (width height : Z) (lo hi : float) (M : Z) (g : globals) :
  (script width height lo hi M >> assign_X_Y) g = script width height lo hi M g.
Proof.
  unfold then_ at 1. rewrite script_outcome. unfold outcome.
  destruct (Np.linspace lo hi width) as [xs|]; [|reflexivity].
  destruct (Np.linspace lo hi height) as [ys|]; reflexivity.
Qed.

(** [np.linspace] gives exactly [num] samples, none for [num = 0], and
    raises only for a negative [num]. *)
Theorem linspace_count (lo hi : float) (num : Z) :
  (Np.linspace lo hi num = None <-> num < 0) /\
  (forall l, Np.linspace lo hi num = Some l -> length l = Z.to_nat num) /\
  Np.linspace lo hi 0 = Some [].
Proof.
  split; [|split; [|reflexivity]].
  - split; [|apply linspace_negative].
    intros Hnone. destruct (Z.ltb_spec num 0) as [Hn|Hn]; [exact Hn|].
    destruct (linspace_length lo hi num Hn) as (l & Hl & _). congruence.
  - intros l Hl. destruct (Z.ltb_spec num 0) as [Hn|Hn].
    + rewrite (linspace_negative lo hi num Hn) in Hl. discriminate Hl.
    + destruct (linspace_length lo hi num Hn) as (l' & Hl' & Hlen). congruence.
Qed.

(** Lowering [max_iterations] only clips the field: run with the bounds
    [M1 <= M2] on one grid, every entry of the first field is the entry of
    the second cut off at [M1], so the cells that escaped below [M1] are the
    same in both. *)
Theorem field_truncates (width height : Z) (lo hi : float) (M1 M2 : Z)
    (g g1 g2 : globals) (field1 field2 : list (list float)) :
  0 <= M1 -> M1 <= M2 ->
  script width height lo hi M1 g = Some g1 -> mandelbrot_set g1 = Some field1 ->
  script width height lo hi M2 g = Some g2 -> mandelbrot_set g2 = Some field2 ->
  forall j i, 0 <= j < height -> 0 <= i < width ->
    exists n, 0 <= n <= M2 /\
      Np.getitem2 field2 j i = Some (Py.float_of_int n) /\
      Np.getitem2 field1 j i = Some (Py.float_of_int (Z.min M1 n)).
Proof.
  intros H1 H12 Hrun1 Hf1 Hrun2 Hf2 j i Hj Hi.
  rewrite script_outcome in Hrun1, Hrun2.
  destruct (outcome_run width height lo hi M1) as (xs & ys & Hxs & Hlx & Hys & Hly & Hout1);
    [lia | lia |].
  unfold outcome in Hrun1, Hrun2. rewrite Hxs, Hys in Hrun1, Hrun2.
  simpl in Hrun1, Hrun2. injection Hrun1 as <-. injection Hrun2 as <-.
  simpl in Hf1, Hf2. injection Hf1 as <-. injection Hf2 as <-.
  destruct (outcome_cells xs ys M1 j i) as (a & b & Ha & Hb & ->); [lia | lia |].
  destruct (outcome_cells xs ys M2 j i) as (a' & b' & Ha' & Hb' & ->); [lia | lia |].
  assert (a' = a) as -> by congruence. assert (b' = b) as -> by congruence.
  eexists. split; [apply mandelbrot_range; lia|]. split; [reflexivity|].
  rewrite (mandelbrot_cut _ M1 M2 H1 H12). reflexivity.
Qed.

Lemma field_truncates_witness :
  exists n, 0 <= n <= 5 /\
    Np.getitem2 [[2; 5; 1]; [5; 5; 2]; [2; 5; 1]]%float 0 0 = Some (Py.float_of_int n) /\
    Np.getitem2 [[1; 1; 1]; [1; 1; 1]; [1; 1; 1]]%float 0 0 = Some (Py.float_of_int (Z.min 1 n)).
Proof.
  refine (field_truncates 3 3 (-1) 1 1 5 unbound _ _ _ _ _ _ _ _ _ _ 0 0 _ _);
    [lia | lia | | | | | lia | lia]; vm_compute; reflexivity.
Defined.

(** ** The frame callback: results *)

Lemma append_length (s t : string) :
  String.length (s +:+ t) = (String.length s + String.length t)%nat.
Proof. induction s as [|a s IH]; simpl; [reflexivity|]. rewrite IH. reflexivity. Qed.

Lemma append_inv_tail (s1 s2 t : string) : s1 +:+ t = s2 +:+ t -> s1 = s2.
Proof.
  revert s2. induction s1 as [|a s1 IH]; intros [|b s2] H.
  - reflexivity.
  - apply (f_equal String.length) in H. rewrite !append_length in H. simpl in H. lia.
  - apply (f_equal String.length) in H. rewrite !append_length in H. simpl in H. lia.
  - change (String a (s1 +:+ t) = String b (s2 +:+ t)) in H.
    injection H as -> H. f_equal. exact (IH _ H).
Qed.

(** The title identifies the frame: under one frame count, two frames have
    the same title only when they are the same frame. The first frame of
    the script is titled [Frame 1/60] and the last [Frame 60/60]. *)
Theorem title_identifies_frame (frames frame1 frame2 : Z) :
  (title frames frame1 = title frames frame2 <-> frame1 = frame2) /\
  title 60 0 = "Frame 1/60" /\ title 60 59 = "Frame 60/60".
Proof.
  split; [|split; vm_compute; reflexivity].
  split; [|intros ->; reflexivity].
  unfold title, Py.str. intros H.
  apply (inj (String.append "Frame ")) in H.
  change (pretty (frame1 + 1) +:+ ("/" +:+ pretty frames) =
          pretty (frame2 + 1) +:+ ("/" +:+ pretty frames)) in H.
  apply append_inv_tail, (inj pretty) in H. lia.
Qed.

Lemma sweep_ok_upto_360 : forallb sweep_ok (map (Z.add 1) (Py.range 360)) = true.
Proof. vm_compute. reflexivity. Qed.

Lemma script_azimuths :
  forallb (fun frame =>
    match angle 60 frame with
    | Some a => PrimFloat.Leibniz.eqb a (Py.float_of_int (6 * frame))
    | None => false
    end) (Py.range 60) = true.
Proof. vm_compute. reflexivity. Qed.

(** The camera sweep. For an animation of 1 to 360 frames, the azimuth of
    every frame lies in [0, 360), the first is 0 and each is above the one
    before (so is the azimuth a frame past the last one). For the 60 frames
    of the script the azimuth of frame [f] is exactly [6*f] degrees. *)
Theorem camera_sweep (frames frame : Z) :
  1 <= frames <= 360 -> 0 <= frame < frames ->
  (exists a a',
     angle frames frame = Some a /\ angle frames (frame + 1) = Some a' /\
     (0 <=? a)%float = true /\ (a <? 360)%float = true /\ (a <? a')%float = true /\
     (frame = 0 -> a = 0%float)) /\
  (frames = 60 -> angle frames frame = Some (Py.float_of_int (6 * frame))).
Proof.
  intros Hframes Hframe. split.
  - pose proof sweep_ok_upto_360 as Hall. rewrite forallb_forall in Hall.
    specialize (Hall frames).
    assert (In frames (map (Z.add 1) (Py.range 360))) as Hin.
    { apply in_map_iff. exists (frames - 1). split; [lia|].
      apply list_elem_of_In, range_elem. lia. }
    apply Hall in Hin. unfold sweep_ok in Hin. unfold angle.
    destruct (Py.truediv 360 frames) as [q|]; [|discriminate Hin].
    rewrite forallb_forall in Hin.
    specialize (Hin frame (proj1 (list_elem_of_In _ _) (proj2 (range_elem _ _) Hframe))).
    cbv zeta in Hin.
    apply andb_prop in Hin as [Hin Hzero]. apply andb_prop in Hin as [Hin Hlt].
    apply andb_prop in Hin as [Hge H360].
    eexists _, _. simpl. do 2 (split; [reflexivity|]).
    repeat (split; [assumption|]).
    intros ->. simpl in Hzero. apply FloatAxioms.Leibniz.eqb_spec. exact Hzero.
  - intros ->. pose proof script_azimuths as Hall. rewrite forallb_forall in Hall.
    specialize (Hall frame (proj1 (list_elem_of_In _ _) (proj2 (range_elem _ _) Hframe))).
    destruct (angle 60 frame) as [a|]; [|discriminate Hall].
    f_equal. apply FloatAxioms.Leibniz.eqb_spec. exact Hall.
Qed.

Lemma camera_sweep_witness :
  1 <= 60 <= 360 /\ 0 <= 59 < 60 /\ angle 60 59 = Some 354%float.
Proof.
  split; [lia|]. split; [lia|].
  exact (proj2 (camera_sweep 60 59 ltac:(lia) ltac:(lia)) eq_refl).
Defined.




(** ** The grid points: [x + 1j*y] against the pair of its coordinates *)

(** Multiplying by 1.0 is exact. *)
Lemma mul_one_l (b : float) : (1 * b)%float = b.
Proof.
  apply Prim2SF_inj. rewrite mul_spec. pose proof (Prim2SF_valid b) as Hvalid.
  change (Prim2SF 1) with (S754_finite false 4503599627370496 (-52)).
  destruct (Prim2SF b) as [s|s| |s m e]; try reflexivity.
  simpl in Hvalid. apply andb_prop in Hvalid as [Hcanon Hbound].
  unfold canonical_mantissa in Hcanon. apply Z.eqb_eq in Hcanon.
  unfold SF64mul, SFmul, binary_round_aux, shr_fexp.
  cbn [xorb shr_record_of_loc].
  assert ((4503599627370496 * m)%positive = Nat.iter 52 xO m) as -> by reflexivity.
  assert (Zdigits2 (Z.pos (Nat.iter 52 xO m)) = Z.pos (digits2_pos m) + 52) as ->
    by (simpl; lia).
  replace (Z.pos (digits2_pos m) + 52 + (-52 + e)) with (Z.pos (digits2_pos m) + e) by lia.
  rewrite Hcanon. replace (e - (-52 + e)) with 52 by lia.
  unfold shr at 1.
  assert (SpecFloat.iter_pos shr_1 52 {| shr_m := Z.pos (Nat.iter 52 xO m); shr_r := false; shr_s := false |}
          = {| shr_m := Z.pos m; shr_r := false; shr_s := false |}) as -> by reflexivity.
  cbn [shr_m loc_of_shr_record round_nearest_even Zdigits2].
  replace (-52 + e + 52) with e by lia.
  rewrite Hcanon, Z.sub_diag. cbn [shr shr_m]. rewrite Hbound. reflexivity.
Qed.

Lemma is_finite_false (b : float) :
  is_finite b = false ->
  Prim2SF b = S754_nan \/ exists s, Prim2SF b = S754_infinity s.
Proof.
  unfold is_finite, is_nan, is_infinity.
  rewrite !FloatAxioms.eqb_spec, abs_spec.
  change (Prim2SF infinity) with (S754_infinity false).
  destruct (Prim2SF b) as [s|s| |s m e]; simpl; eauto; try discriminate.
  unfold SFeqb, SFcompare.
  destruct s; rewrite Z.compare_refl, Pos.compare_cont_refl; discriminate.
Qed.

Lemma same_nonzero (a b : float) : same a b -> (b =? 0)%float = false -> a = b.
Proof.
  unfold same. rewrite FloatAxioms.eqb_spec.
  change (Prim2SF 0) with (S754_zero false). intros Hsame Hne.
  apply Prim2SF_inj.
  destruct (Prim2SF b) as [s|s| |s m e]; [discriminate Hne| | |];
    destruct (Prim2SF a); simpl in Hsame; congruence.
Qed.

Lemma add_zero_r_same (a z : float) (s : bool) :
  Prim2SF z = S754_zero s -> same (a + z) a.
Proof.
  intros Hz. unfold same. rewrite add_spec, Hz.
  destruct (Prim2SF a) as [[|]|[|]| |[|] m e], s; simpl; trivial.
Qed.

Lemma add_zero_l_same (b : float) : same (0 + b) b.
Proof.
  unfold same. rewrite add_spec. change (Prim2SF 0) with (S754_zero false).
  destruct (Prim2SF b) as [[|]|[|]| |[|] m e]; simpl; trivial.
Qed.

(** The grid point [a + 1j*b] has the coordinates [a] and [b], up to the
    sign of a zero coordinate, when [b] is finite; an infinite or NaN [b]
    makes its real part NaN, whatever [a] is. *)
Theorem grid_point_coordinates (a b : float) :
  same (imag (point a b)) b /\
  ((b =? 0)%float = false -> imag (point a b) = b) /\
  (is_finite b = true ->
     same (real (point a b)) a /\
     ((a =? 0)%float = false -> real (point a b) = a)) /\
  (is_finite b = false -> real (point a b) = nan).
Proof.
  assert (same (imag (point a b)) b) as Him.
  { unfold point, cadd, cmul, of_real, j1. simpl.
    change (0 * 0)%float with 0%float. rewrite mul_one_l.
    eapply same_trans; [|apply add_zero_l_same].
    apply add_same; [apply same_refl | apply add_zero_l_same]. }
  split; [exact Him|]. split; [intros Hb; exact (same_nonzero _ _ Him Hb)|].
  split.
  - intros Hfin.
    assert (same (real (point a b)) a) as Hre.
    { unfold point, cadd, cmul, of_real, j1. simpl.
      change (1 * 0)%float with 0%float.
      apply is_finite_spec in Hfin.
      assert (exists s, Prim2SF (0 * b - 0) = S754_zero s) as [s Hs].
      { rewrite sub_spec, mul_spec. change (Prim2SF 0) with (S754_zero false).
        destruct (Prim2SF b) as [[|]|?| |[|] m e]; try contradiction; simpl; eauto. }
      exact (add_zero_r_same a _ s Hs). }
    split; [exact Hre|]. intros Ha. exact (same_nonzero _ _ Hre Ha).
  - intros Hinf. unfold point, cadd, cmul, of_real, j1. simpl.
    apply Prim2SF_inj. rewrite add_spec, sub_spec, !mul_spec.
    change (Prim2SF 0) with (S754_zero false).
    change (Prim2SF 1) with (S754_finite false 4503599627370496 (-52)).
    change (Prim2SF nan) with S754_nan.
    destruct (is_finite_false b Hinf) as [-> | [s ->]]; simpl;
      destruct (Prim2SF a); reflexivity.
Qed.
